(** * Document sealing: field text layout, rendering and the seal state change

    A shallow embedding of the sealing pipeline found in
    - [packages/lib/server-only/document/seal-document.ts]   ([sealDocument]),
    - [packages/lib/jobs/definitions/internal/seal-document.handler.ts]
      (the job handler [run], module [Handler]),
    - the second copy of the job handler that wraps field text
      (module [Wrapping]),
    together with the inline helper [breakLongString]. *)

From Stdlib Require Import ZArith QArith.
From stdpp Require Import base list strings.
Close Scope Q_scope.

(** ** Numbers

    The code computes with JavaScript numbers. Nothing below depends on an
    algebraic law of the arithmetic: the operations are an interface, and
    every statement holds for any implementation of it (IEEE doubles
    included, where [<=] and [<] are false on NaN). *)

Class Number (num : Type) := {
  add : num → num → num;
  sub : num → num → num;
  mul : num → num → num;
  div : num → num → num;
  leb : num → num → bool;      (* a <= b *)
  ltb : num → num → bool;      (* a < b *)
  lit : Q → num;               (* the value of a numeric literal *)
}.

#[export] Instance Q_Number : Number Q := {|
  add := Qplus; sub := Qminus; mul := Qmult; div := Qdiv;
  leb := Qle_bool;
  ltb := fun a b => negb (Qle_bool b a);
  lit := fun q => q;
|}.

(** ** Strings

    A JavaScript string is modelled by the list of its code points, the
    units that [for (const char of word)] iterates over. Splitting on a
    line feed or on a space gives the same pieces on code units and on code
    points, and [s.length === 0] holds of the empty string only. *)

Definition char : Type := N.
Definition text : Type := list char.

Definition LF : char := 10%N.
Definition SPACE : char := 32%N.

(** The code points of an ASCII literal. *)
Definition chars (s : string) : text :=
  List.map Ascii.N_of_ascii (String.list_ascii_of_string s).

(** [s.split(sep)] for a one-character separator: the empty string gives
    one empty piece. *)
Fixpoint split (sep : char) (s : text) : list text :=
  match s with
  | [] => [[]]
  | c :: s' =>
      if N.eqb c sep then [] :: split sep s'
      else match split sep s' with
           | piece :: pieces => (c :: piece) :: pieces
           | [] => [[c]]
           end
  end.

(** [lines.join(sep)]. *)
Fixpoint join (sep : char) (lines : list text) : text :=
  match lines with
  | [] => []
  | [l] => l
  | l :: ls => l ++ sep :: join sep ls
  end.

(** ** Text layout: [breakLongString]

    [font] stands for [font.widthOfTextAtSize]. The list [lines] is the
    array the source pushes to; every loop threads it together with its
    own cursor ([charLine], [currentLine]). *)

Section TextLayout.
  Context {num : Type} `{Number num}.
  Variable font : text → num → num.
  Variables (maxWidth fontSize : num).

Definition fits (t : text) : bool := leb (font t fontSize) maxWidth.

  (** [for (const char of word)]: break a word that is too long. *)
Fixpoint breakWord (word : text) (lines : list text) (charLine : text)
    : list text * text :=
    match word with
    | [] => (lines, charLine)
    | c :: rest =>
        let nextCharLine := charLine ++ [c] in
        if fits nextCharLine then breakWord rest lines nextCharLine
        else breakWord rest (lines ++ [charLine]) [c]
    end.

  (** [for (const word of words)]. *)
Fixpoint wrapWords (words : list text) (lines : list text) (currentLine : text)
    : list text * text :=
    match words with
    | [] => (lines, currentLine)
    | word :: rest =>
        let lineWithWord :=
          if Nat.eqb (length currentLine) 0 then word
          else currentLine ++ SPACE :: word in
        if fits lineWithWord then wrapWords rest lines lineWithWord
        else
          let '(lines1, currentLine1) :=
            if Nat.ltb 0 (length currentLine) then (lines ++ [currentLine], [])
            else (lines, currentLine) in
          if fits word then wrapWords rest lines1 word
          else
            let '(lines2, charLine) := breakWord word lines1 [] in
            wrapWords rest lines2 charLine
    end.

  (** The body of [for (const paragraph of text.split('\n'))]. *)
Definition wrapParagraph (lines : list text) (paragraph : text) : list text :=
    if bool_decide (paragraph = []) || fits paragraph then lines ++ [paragraph]
    else
      let '(lines1, currentLine) := wrapWords (split SPACE paragraph) lines [] in
      if Nat.ltb 0 (length currentLine) then lines1 ++ [currentLine] else lines1.

Definition breakLongString (t : text) : text :=
    if bool_decide (t = []) then []
    else join LF (fold_left wrapParagraph (split LF t) []).

  (** The lines a caller obtains with [wrappedText.split('\n')]. *)
Definition wrappedLines (t : text) : list text :=
    split LF (breakLongString t).

End TextLayout.

(** A metric for examples: every character is one unit wide. *)
Definition unitFont (t : text) (_ : Q) : Q := inject_Z (Z.of_nat (length t)).

Example split_ex : split LF (chars "a" ++ [LF; LF] ++ chars "b") = [chars "a"; []; chars "b"].
Proof. reflexivity. Qed.

Example wrap_ex :
  wrappedLines unitFont (lit 5) (lit 8) (chars "ab cd efghijklm n")
  = [chars "ab cd"; chars "efghi"; chars "jklm"; chars "n"].
Proof. vm_compute. reflexivity. Qed.

(** ** Data model

    The enumerations of [@prisma/client] are not part of the sources at
    hand; the code only names the members it compares with. *)

Module SigningStatus.
  (** Modelled from the spec: the enum [SigningStatus] of [@prisma/client]
      is missing; the data model lists a recipient's signing status as
      [PENDING|SIGNED|REJECTED]. *)
Inductive t := PENDING | SIGNED | REJECTED.
#[global] Instance eq_dec : EqDecision t.
  Proof. solve_decision. Defined.
End SigningStatus.

Module RecipientRole.
  (** Modelled from the spec: the enum [RecipientRole] is missing; the data
      model lists [SIGNER|APPROVER|CC|...] and the code singles out [CC]. *)
Inductive t := SIGNER | APPROVER | VIEWER | CC.
#[global] Instance eq_dec : EqDecision t.
  Proof. solve_decision. Defined.
End RecipientRole.

Module DocumentStatus.
  (** Modelled from the spec: the enum [DocumentStatus] is missing; the data
      model lists [DRAFT|PENDING|COMPLETED|REJECTED]. *)
Inductive t := DRAFT | PENDING | COMPLETED | REJECTED.
#[global] Instance eq_dec : EqDecision t.
  Proof. solve_decision. Defined.
End DocumentStatus.

Module FieldType.
  (** Modelled from the spec: the enum [FieldType] is missing; the
      signature-bearing types are [SIGNATURE] and [FREE_SIGNATURE], the
      others are plain. *)
Inductive t := SIGNATURE | FREE_SIGNATURE | TEXT | DATE | CHECKBOX.
#[global] Instance eq_dec : EqDecision t.
  Proof. solve_decision. Defined.
End FieldType.

Module WebhookTriggerEvents.
Inductive t := DOCUMENT_COMPLETED | DOCUMENT_REJECTED.
#[global] Instance eq_dec : EqDecision t.
  Proof. solve_decision. Defined.
End WebhookTriggerEvents.

Record Recipient := {
  recipient_documentId : Z;
  role : RecipientRole.t;
  signingStatus : SigningStatus.t;
  rejectionReason : option string;      (* string | null *)
}.

Record Field (num : Type) := {
  field_documentId : Z;
  type : FieldType.t;
  page : Z;
  positionX : num;
  positionY : num;
  width : num;
  height : num;
  inserted : bool;
  customText : text;
}.
Arguments field_documentId {num}.
Arguments type {num}.
Arguments page {num}.
Arguments positionX {num}.
Arguments positionY {num}.
Arguments width {num}.
Arguments height {num}.
Arguments inserted {num}.
Arguments customText {num}.

(** A row of the [documentData] table: [data] and [initialData] are the
    storage references of the current and of the pristine bytes. *)
Record DocumentData := {
  documentData_id : string;
  documentData_type : string;
  data : string;
  initialData : string;
}.

Record Document := {
  document_id : Z;
  title : string;
  status : DocumentStatus.t;
  completedAt : option Z;
  qrToken : option string;
  documentDataId : string;
  useLegacyFieldInsertion : bool;
  userId : Z;
  teamId : option Z;
  (* document.team?.teamGlobalSettings?.includeSigningCertificate *)
  includeSigningCertificate : option bool;
  (* document.documentMeta?.language *)
  language : option string;
}.

(** An audit log row as [createDocumentAuditLogData] is asked to build it:
    [log_rejection = Some r] stands for the payload
    [{ isRejected: true, rejectionReason: r }], [None] for its absence. *)
Inductive AuditLogType := DOCUMENT_COMPLETED.

Record AuditLog := {
  log_type : AuditLogType;
  log_documentId : Z;
  log_requestMetadata : option string;
  log_transactionId : nat;
  log_rejection : option string;
}.

(** *** The PDF under construction

    A loaded PDF is its page list and the sequence of operations applied
    to it since it was loaded from [source]. *)

Record Page (num : Type) := { pageWidth : num; pageHeight : num }.
Arguments pageWidth {num}.
Arguments pageHeight {num}.

Inductive PdfOp (num : Type) :=
| NormalizeSignatureAppearances
| FlattenForm
| FlattenAnnotations
| RejectionStamp (reason : string)
| DrawText (pageIndex : nat) (line : text) (x y size : num)
| AddPage (p : Page num)
| InsertField (legacy : bool) (f : Field num).
Arguments NormalizeSignatureAppearances {num}.
Arguments FlattenForm {num}.
Arguments FlattenAnnotations {num}.
Arguments RejectionStamp {num}.
Arguments DrawText {num}.
Arguments AddPage {num}.
Arguments InsertField {num}.

Record PdfDoc (num : Type) := {
  source : string;
  pages : list (Page num);
  content : list (PdfOp num);
}.
Arguments source {num}.
Arguments pages {num}.
Arguments content {num}.

Definition apply {num} (op : PdfOp num) (doc : PdfDoc num) : PdfDoc num :=
  {| source := source doc; pages := pages doc; content := content doc ++ [op] |}.

Definition applyAll {num} (ops : list (PdfOp num)) (doc : PdfDoc num) : PdfDoc num :=
  {| source := source doc; pages := pages doc; content := content doc ++ ops |}.

Definition addPage {num} (doc : PdfDoc num) (p : Page num) : PdfDoc num :=
  {| source := source doc; pages := pages doc ++ [p];
     content := content doc ++ [AddPage p] |}.

(** [pages.at(i)]: a negative index counts from the end. The result is the
    position of the element, if there is one. *)
Definition at_index (len : nat) (i : Z) : option nat :=
  let k := if (i <? 0)%Z then (Z.of_nat len + i)%Z else i in
  if (k <? 0)%Z || (Z.of_nat len <=? k)%Z then None else Some (Z.to_nat k).

Definition isSignatureField {num} (field : Field num) : bool :=
  bool_decide (type field = FieldType.SIGNATURE)
  || bool_decide (type field = FieldType.FREE_SIGNATURE).

Definition isNonSignatureField {num} (field : Field num) : bool :=
  negb (bool_decide (type field = FieldType.SIGNATURE))
  && negb (bool_decide (type field = FieldType.FREE_SIGNATURE)).

(** Truthiness of a string: [if (s)]. *)
Definition truthy (s : string) : bool := negb (bool_decide (s = "")).
Definition truthyText (s : text) : bool := negb (bool_decide (s = [])).

Definition at_ {A} (l : list A) (i : Z) : option (nat * A) :=
  k ← at_index (length l) i; x ← l !! k; Some (k, x).

(** ** Field renderer: text of the non-signature fields *)

Section Renderer.
  Context {num : Type} `{Number num}.
  (** [font.widthOfTextAtSize] of the embedded Helvetica. *)
  Variable font : text → num → num.

  (** [for (const line of lines)] with its cursor [currentY]; [floor] is
      [invertedY + padding]. *)
Fixpoint drawLines (k : nat) (x floor lineHeight fontSize : num)
      (lines : list text) (currentY : num) : list (PdfOp num) :=
    match lines with
    | [] => []
    | line :: rest =>
        if ltb currentY floor then []
        else DrawText k line x currentY fontSize
               :: drawLines k x floor lineHeight fontSize rest (sub currentY lineHeight)
    end.

  (** seal-document.ts 165-210 and the wrapping handler 198-243: the text
      of one field on its page, wrapped. *)
Definition drawWrappedText (k : nat) (page : Page num) (field : Field num)
    : list (PdfOp num) :=
    let pageWidth := pageWidth page in
    let pageHeight := pageHeight page in
    let fieldWidth := mul pageWidth (div (width field) (lit 100%Q)) in
    let fieldHeight := mul pageHeight (div (height field) (lit 100%Q)) in
    let fieldX := mul pageWidth (div (positionX field) (lit 100%Q)) in
    let fieldY := mul pageHeight (div (positionY field) (lit 100%Q)) in
    let invertedY := sub (sub pageHeight fieldY) fieldHeight in
    let fontSize := lit 8%Q in
    let padding := lit 4%Q in
    if truthyText (customText field) then
      let availableWidth := sub fieldWidth (mul padding (lit 2%Q)) in
      let wrappedText := breakLongString font availableWidth fontSize (customText field) in
      let lines := split LF wrappedText in
      let lineHeight := mul fontSize (lit 1.2%Q) in
      let currentY := sub (sub (add invertedY fieldHeight) padding) fontSize in
      drawLines k (add fieldX padding) (add invertedY padding) lineHeight fontSize
                lines currentY
    else [].

  (** seal-document.handler.ts 198-221: the text of one field on its page,
      on one line. *)
Definition drawCenteredText (k : nat) (page : Page num) (field : Field num)
    : list (PdfOp num) :=
    let pageWidth := pageWidth page in
    let pageHeight := pageHeight page in
    let fieldWidth := mul pageWidth (div (width field) (lit 100%Q)) in
    let fieldHeight := mul pageHeight (div (height field) (lit 100%Q)) in
    let fieldX := mul pageWidth (div (positionX field) (lit 100%Q)) in
    let fieldY := mul pageHeight (div (positionY field) (lit 100%Q)) in
    let invertedY := sub (sub pageHeight fieldY) fieldHeight in
    let fontSize := lit 8%Q in
    if truthyText (customText field) then
      [DrawText k (customText field) (add fieldX (lit 2%Q))
                (sub (add invertedY (div fieldHeight (lit 2%Q))) (div fontSize (lit 2%Q)))
                fontSize]
    else [].

  (** seal-document.ts 157-211: [for (const field of nonSignatureFields)]. *)
Definition sealDocument_drawField (doc : PdfDoc num) (field : Field num) : PdfDoc num :=
    match at_ (pages doc) (page field - 1) with
    | None => doc
    | Some (k, page) => applyAll (drawWrappedText k page field) doc
    end.

  (** The same loop in the job handlers (186-222, and 186-244 of the
      wrapping copy), which differ in how one field's text is drawn. *)
Definition run_drawField
      (drawText : nat → Page num → Field num → list (PdfOp num))
      (doc : PdfDoc num) (field : Field num) : PdfDoc num :=
    if negb (inserted field) then doc
    else
      match at_ (pages doc) (page field - 1) with
      | None => doc
      | Some (k, page) => applyAll (drawText k page field) doc
      end.

End Renderer.

(** ** Collaborators and the world

    Everything the pipeline imports and that is not in the sources at hand
    is a field of [Env]: a pure helper is a function, a call that can fail
    says so in its result ([None] or [false] is a rejected promise). *)

Record Env (num : Type) := {
  (* ../../utils/advanced-fields-helpers *)
  fieldsContainUnsignedRequiredField : list (Field num) → bool;
  (* ../../utils/document *)
  isDocumentCompleted : DocumentStatus.t → bool;
  getFileServerSide : DocumentData → option string;
  getCertificatePdf : Z → option string → option string;
  (* PDFDocument.load: the pages of the parsed bytes *)
  PDFDocument_load : string → option (list (Page num));
  (* the embedded Helvetica: font.widthOfTextAtSize *)
  widthOfTextAtSize : text → num → num;
  (* signPdf on the bytes of doc.save() *)
  signPdf : PdfDoc num → option string;
  (* putPdfFileServerSide: the documentData row it asks the database to create *)
  putPdfFileServerSide : string → string → option DocumentData;
  (* path.parse(title).name *)
  path_parse_name : string → string;
  (* PostHogServerClient() is not null *)
  PostHogServerClient : bool;
  (* the n-th write sent to the database by this world fails *)
  statementFails : nat → bool;
  sendCompletedEmail : Z → option string → bool;
  triggerWebhook : WebhookTriggerEvents.t → Document → bool;
  (* new Date() *)
  now : Z;
  prefixedId : string → nat → string;
}.
Arguments fieldsContainUnsignedRequiredField {num}.
Arguments isDocumentCompleted {num}.
Arguments getFileServerSide {num}.
Arguments getCertificatePdf {num}.
Arguments PDFDocument_load {num}.
Arguments widthOfTextAtSize {num}.
Arguments signPdf {num}.
Arguments putPdfFileServerSide {num}.
Arguments path_parse_name {num}.
Arguments PostHogServerClient {num}.
Arguments statementFails {num}.
Arguments sendCompletedEmail {num}.
Arguments triggerWebhook {num}.
Arguments now {num}.
Arguments prefixedId {num}.

(** Calls made to the outside, in the order they are made. *)
Inductive Call (num : Type) :=
| GetFile (documentData : DocumentData)
| GetCertificatePdf (documentId : Z) (language : option string)
| SignPdf (doc : PdfDoc num)
| PutPdfFile (name : string) (bytes : string)
| Capture (distinctId : nat) (documentId : Z) (isRejected : bool)
| SendCompletedEmail (documentId : Z) (requestMetadata : option string)
| TriggerWebhook (event : WebhookTriggerEvents.t) (document : Document)
    (documentData : option DocumentData) (recipients : list Recipient)
    (userId : Z) (teamId : option Z).
Arguments GetFile {num}.
Arguments GetCertificatePdf {num}.
Arguments SignPdf {num}.
Arguments PutPdfFile {num}.
Arguments Capture {num}.
Arguments SendCompletedEmail {num}.
Arguments TriggerWebhook {num}.

(** The results the job runner has stored for the named tasks of one job:
    ['get-document-status'], ['get-document-data-id'],
    ['decorate-and-sign-pdf'], ['update-document'],
    ['send-completed-email']. *)
Record TaskCache := {
  get_document_status : option DocumentStatus.t;
  get_document_data_id : option string;
  decorate_and_sign_pdf : option string;
  update_document : option unit;
  send_completed_email : option unit;
}.

Definition noTasks : TaskCache :=
  {| get_document_status := None; get_document_data_id := None;
     decorate_and_sign_pdf := None; update_document := None;
     send_completed_email := None |}.

Record World (num : Type) := {
  documentTable : list Document;
  documentDataTable : list DocumentData;
  recipientTable : list Recipient;
  fieldTable : list (Field num);
  auditLogTable : list AuditLog;
  statements : nat;             (* writes sent to the database so far *)
  nanoids : nat;                (* identifiers drawn so far *)
  calls : list (Call num);      (* newest first *)
  tasks : TaskCache;
}.
Arguments documentTable {num}.
Arguments documentDataTable {num}.
Arguments recipientTable {num}.
Arguments fieldTable {num}.
Arguments auditLogTable {num}.
Arguments statements {num}.
Arguments nanoids {num}.
Arguments calls {num}.
Arguments tasks {num}.

Inductive Collaborator :=
| the_database | the_storage | the_pdf_parser | the_signer | the_mailer | the_webhooks.

Inductive Error :=
| RecordNotFound (table : string)
| DocumentNotComplete                    (* AppError: 'Document is not complete' *)
| NoDocumentData (documentId : Z)        (* 'Document N has no document data' *)
| UnsignedRecipients (documentId : Z)    (* 'Document N has unsigned recipients' *)
| UnsignedRequiredFields (documentId : Z)(* 'Document N has unsigned required fields' *)
| Rejected (by_ : Collaborator).

Inductive Outcome (A : Type) := Return (a : A) | Throw (e : Error).
Arguments Return {A}.
Arguments Throw {A}.

(** ** The monad of the pipeline: state and exceptions *)

Definition M (num A : Type) : Type := World num → Outcome A * World num.

#[global] Instance M_ret {num} : MRet (M num) := λ A a w, (Return a, w).
#[global] Instance M_bind {num} : MBind (M num) := λ A B k m w,
  match m w with
  | (Return a, w') => k a w'
  | (Throw e, w') => (Throw e, w')
  end.

Definition throw {num A} (e : Error) : M num A := λ w, (Throw e, w).

(** [await promise] of a call that resolves to [o] or rejects. *)
Definition outcome {A} (by_ : Collaborator) (o : option A) : Outcome A :=
  match o with Some a => Return a | None => Throw (Rejected by_) end.

Definition await {num A} (by_ : Collaborator) (o : option A) : M num A :=
  λ w, (outcome by_ o, w).

Definition when_ {num} (b : bool) (m : M num ()) : M num () :=
  if b then m else mret ().

(** The tables of the database are lists of rows; the other parts of the
    world are untouched by a change of the tables. *)
Definition with_tables {num} (w : World num) (docs : list Document)
    (datas : list DocumentData) (logs : list AuditLog) (n : nat) : World num :=
  {| documentTable := docs; documentDataTable := datas;
     recipientTable := recipientTable w; fieldTable := fieldTable w;
     auditLogTable := logs; statements := n;
     nanoids := nanoids w; calls := calls w; tasks := tasks w |}.

Definition with_tasks {num} (w : World num) (c : TaskCache) : World num :=
  {| documentTable := documentTable w; documentDataTable := documentDataTable w;
     recipientTable := recipientTable w; fieldTable := fieldTable w;
     auditLogTable := auditLogTable w; statements := statements w;
     nanoids := nanoids w; calls := calls w; tasks := c |}.

Definition with_call {num} (w : World num) (c : Call num) : World num :=
  {| documentTable := documentTable w; documentDataTable := documentDataTable w;
     recipientTable := recipientTable w; fieldTable := fieldTable w;
     auditLogTable := auditLogTable w; statements := statements w;
     nanoids := nanoids w; calls := c :: calls w; tasks := tasks w |}.

Definition with_nanoid {num} (w : World num) : World num :=
  {| documentTable := documentTable w; documentDataTable := documentDataTable w;
     recipientTable := recipientTable w; fieldTable := fieldTable w;
     auditLogTable := auditLogTable w; statements := statements w;
     nanoids := S (nanoids w); calls := calls w; tasks := tasks w |}.

Definition call {num} (c : Call num) : M num () := λ w, (Return (), with_call w c).

(** [nanoid()]: an identifier that was not drawn before. *)
Definition nanoid {num} : M num nat := λ w, (Return (nanoids w), with_nanoid w).

(** *** The database

    [where: { id }] selects the rows whose id is the given one. *)

Definition hasId (id : Z) (d : Document) : bool := bool_decide (document_id d = id).
Definition hasDataId (id : string) (d : DocumentData) : bool :=
  bool_decide (documentData_id d = id).

Definition documentOf {num} (w : World num) (id : Z) : option Document :=
  List.find (hasId id) (documentTable w).

Definition documentDataOf {num} (w : World num) (id : string) : option DocumentData :=
  List.find (hasDataId id) (documentDataTable w).

(** The recipients of a document, with or without [role: { not: CC }]. *)
Definition recipientsOf {num} (w : World num) (documentId : Z) (notCC : bool)
  : list Recipient :=
  List.filter (λ r, bool_decide (recipient_documentId r = documentId)
                    && (negb notCC || negb (bool_decide (role r = RecipientRole.CC))))
              (recipientTable w).

Definition fieldsOf {num} (w : World num) (documentId : Z) : list (Field num) :=
  List.filter (λ f, bool_decide (field_documentId f = documentId)) (fieldTable w).

(** A query reads the world and leaves it as it is. *)
Definition query {num A} (f : World num → Outcome A) : M num A := λ w, (f w, w).

Definition document_findFirstOrThrow {num} (id : Z) : M num Document :=
  query (λ w, match documentOf w id with
              | Some d => Return d
              | None => Throw (RecordNotFound "document")
              end).

Definition documentData_findFirst {num} (id : string) : M num (option DocumentData) :=
  query (λ w, Return (documentDataOf w id)).

Definition documentData_findFirstOrThrow {num} (id : string) : M num DocumentData :=
  query (λ w, match documentDataOf w id with
              | Some d => Return d
              | None => Throw (RecordNotFound "documentData")
              end).

Definition recipient_findMany {num} (documentId : Z) (notCC : bool) : M num (list Recipient) :=
  query (λ w, Return (recipientsOf w documentId notCC)).

Definition field_findMany {num} (documentId : Z) : M num (list (Field num)) :=
  query (λ w, Return (fieldsOf w documentId)).

Section Database.
  Context {num : Type} (E : Env num).

  (** Every write is sent to the database, which may refuse it. *)
Definition statement : M num () := λ w,
    let w' := with_tables w (documentTable w) (documentDataTable w) (auditLogTable w)
                (S (statements w)) in
    if statementFails E (statements w) then (Throw (Rejected the_database), w')
    else (Return (), w').

Definition document_update (id : Z) (f : Document → Document) : M num () :=
    statement;;
    ((λ w, match documentOf w id with
           | Some _ =>
               (Return (),
                with_tables w (List.map (λ d, if hasId id d then f d else d) (documentTable w))
                  (documentDataTable w) (auditLogTable w) (statements w))
           | None => (Throw (RecordNotFound "document"), w)
           end) : M num ()).

Definition documentData_update (id : string) (f : DocumentData → DocumentData) : M num () :=
    statement;;
    ((λ w, match documentDataOf w id with
           | Some _ =>
               (Return (),
                with_tables w (documentTable w)
                  (List.map (λ d, if hasDataId id d then f d else d) (documentDataTable w))
                  (auditLogTable w) (statements w))
           | None => (Throw (RecordNotFound "documentData"), w)
           end) : M num ()).

  (** The id of a new row must be new. *)
Definition documentData_create (row : DocumentData) : M num DocumentData :=
    statement;;
    ((λ w, match documentDataOf w (documentData_id row) with
           | Some _ => (Throw (Rejected the_database), w)
           | None =>
               (Return row,
                with_tables w (documentTable w) (documentDataTable w ++ [row])
                  (auditLogTable w) (statements w))
           end) : M num DocumentData).

Definition documentAuditLog_create (entry : AuditLog) : M num () :=
    statement;;
    ((λ w, (Return (),
            with_tables w (documentTable w) (documentDataTable w)
              (auditLogTable w ++ [entry]) (statements w))) : M num ()).

  (** [prisma.$transaction(async (tx) => body)]: the writes of [body] are
      committed together, or the tables are as they were. *)
Definition transaction {A} (body : M num A) : M num A := λ w,
    match ((a ← body; statement;; mret a) : M num A) w with
    | (Return a, w') => (Return a, w')
    | (Throw e, w') =>
        (Throw e,
         with_tables w' (documentTable w) (documentDataTable w) (auditLogTable w)
           (statements w'))
    end.

  (** *** Calls to the other collaborators *)

Definition getFile (documentData : DocumentData) : M num string :=
    call (GetFile documentData);;
    await the_storage (getFileServerSide E documentData).

  (** [getCertificatePdf(...).catch(() => null)] *)
Definition certificate (documentId : Z) (language : option string)
    : M num (option string) :=
    call (GetCertificatePdf documentId language);;
    mret (getCertificatePdf E documentId language).

Definition load (bytes : string) : M num (PdfDoc num) :=
    pages ← await the_pdf_parser (PDFDocument_load E bytes);
    mret {| source := bytes; pages := pages; content := [] |}.

  (** [signPdf({ pdf: Buffer.from(await doc.save()) })] *)
Definition saveAndSign (doc : PdfDoc num) : M num string :=
    call (SignPdf doc);;
    await the_signer (signPdf E doc).

Definition putPdfFile (name bytes : string) : M num DocumentData :=
    call (PutPdfFile name bytes);;
    row ← await the_storage (putPdfFileServerSide E name bytes);
    documentData_create row.

  (** [if (postHog) postHog.capture({ distinctId: nanoid(), ... })] *)
Definition capture (documentId : Z) (isRejected : bool) : M num () :=
    when_ (PostHogServerClient E)
      (distinctId ← nanoid; call (Capture distinctId documentId isRejected)).

Definition completedEmail (documentId : Z) (requestMetadata : option string) : M num () :=
    call (SendCompletedEmail documentId requestMetadata);;
    if sendCompletedEmail E documentId requestMetadata then mret ()
    else throw (Rejected the_mailer).

  (** The reload of the document and [triggerWebhook]; [owner] picks the
      document whose [userId] and [teamId] are passed on. *)
Definition reloadAndTriggerWebhook (documentId : Z) (isRejected : bool)
      (owner : Document → Document) : M num () :=
    updatedDocument ← document_findFirstOrThrow documentId;
    documentData ← documentData_findFirst (documentDataId updatedDocument);
    recipients ← recipient_findMany documentId false;
    let event := if isRejected then WebhookTriggerEvents.DOCUMENT_REJECTED
                 else WebhookTriggerEvents.DOCUMENT_COMPLETED in
    call (TriggerWebhook event updatedDocument documentData recipients
            (userId (owner updatedDocument)) (teamId (owner updatedDocument)));;
    if triggerWebhook E event updatedDocument then mret ()
    else throw (Rejected the_webhooks).

  (** [io.runTask(name, task)]: a stored result is returned without running
      the task; otherwise the task runs and its result is stored. *)
Definition runTask {A} (cached : TaskCache → option A)
      (store : A → TaskCache → TaskCache) (task : M num A) : M num A := λ w,
    match cached (tasks w) with
    | Some a => (Return a, w)
    | None =>
        match task w with
        | (Return a, w') => (Return a, with_tasks w' (store a (tasks w')))
        | (Throw e, w') => (Throw e, w')
        end
    end.

End Database.

(** ** The two entry points *)

(** [SealDocumentOptions], and the payload [TSealDocumentJobDefinition] of
    the job: [sendEmail] and [isResealing] are optional. *)
Record SealDocumentOptions := {
  documentId : Z;
  sendEmail : option bool;
  isResealing : option bool;
  requestMetadata : option string;
}.

Definition isRejectedRecipient (recipient : Recipient) : bool :=
  bool_decide (signingStatus recipient = SigningStatus.REJECTED).
Definition isSignedRecipient (recipient : Recipient) : bool :=
  bool_decide (signingStatus recipient = SigningStatus.SIGNED).

(** [Boolean(x)] of an object or [undefined]. *)
Definition isSome {A} (o : option A) : bool :=
  match o with Some _ => true | None => false end.

(** [rejectedRecipient?.rejectionReason ?? ''] *)
Definition reasonOf (rejectedRecipient : option Recipient) : string :=
  default "" (rejectedRecipient ≫= rejectionReason).

Definition useInitialData (documentData : DocumentData) : DocumentData :=
  {| documentData_id := documentData_id documentData;
     documentData_type := documentData_type documentData;
     data := initialData documentData;
     initialData := initialData documentData |}.

Definition completion (E_now : Z) (isRejected : bool) (d : Document) : Document :=
  {| document_id := document_id d; title := title d;
     status := if isRejected then DocumentStatus.REJECTED else DocumentStatus.COMPLETED;
     completedAt := Some E_now;
     qrToken := qrToken d; documentDataId := documentDataId d;
     useLegacyFieldInsertion := useLegacyFieldInsertion d;
     userId := userId d; teamId := teamId d;
     includeSigningCertificate := includeSigningCertificate d;
     language := language d |}.

Definition setQrToken (token : string) (d : Document) : Document :=
  {| document_id := document_id d; title := title d;
     status := status d; completedAt := completedAt d;
     qrToken := Some token; documentDataId := documentDataId d;
     useLegacyFieldInsertion := useLegacyFieldInsertion d;
     userId := userId d; teamId := teamId d;
     includeSigningCertificate := includeSigningCertificate d;
     language := language d |}.

Definition setData (newData : string) (d : DocumentData) : DocumentData :=
  {| documentData_id := documentData_id d; documentData_type := documentData_type d;
     data := newData; initialData := initialData d |}.

Definition completedEntry (documentId : Z) (requestMetadata : option string)
    (transactionId : nat) (isRejected : bool) (rejectionReason : string) : AuditLog :=
  {| log_type := DOCUMENT_COMPLETED; log_documentId := documentId;
     log_requestMetadata := requestMetadata;
     log_transactionId := transactionId;
     log_rejection := if isRejected then Some rejectionReason else None |}.

Section Seal.
  Context {num : Type} `{Number num} (E : Env num).

  (** packages/lib/server-only/document/seal-document.ts *)
Definition sealDocument (opts : SealDocumentOptions) : M num () :=
    let sendEmail := default true (sendEmail opts) in
    let isResealing := default false (isResealing opts) in
    let requestMetadata := requestMetadata opts in
    let documentId := documentId opts in
    document ← document_findFirstOrThrow documentId;
    documentData ← documentData_findFirst (documentDataId document);
    match documentData with
    | None => throw (NoDocumentData (document_id document))
    | Some documentData =>
    recipients ← recipient_findMany (document_id document) true;
    let rejectedRecipient := List.find isRejectedRecipient recipients in
    let isRejected := isSome rejectedRecipient in
    let rejectionReason := reasonOf rejectedRecipient in
    when_ (negb isRejected && existsb (λ recipient, negb (isSignedRecipient recipient)) recipients)
      (throw (UnsignedRecipients (document_id document)));;
    fields ← field_findMany (document_id document);
    when_ (negb isRejected && fieldsContainUnsignedRequiredField E fields)
      (throw (UnsignedRequiredFields (document_id document)));;
    let documentData := if isResealing then useInitialData documentData else documentData in
    pdfData ← getFile E documentData;
    let signatureFields := List.filter isSignatureField fields in
    let nonSignatureFields := List.filter isNonSignatureField fields in
    let hasSignatureField := Nat.ltb 0 (length signatureFields) in
    certificateData ←
      (if hasSignatureField && default true (includeSigningCertificate document)
       then certificate E documentId (language document) else mret None);
    doc ← load E pdfData;
    let doc := apply NormalizeSignatureAppearances doc in
    let doc := apply FlattenForm doc in
    let doc := apply FlattenAnnotations doc in
    let doc := if isRejected && truthy rejectionReason
               then apply (RejectionStamp rejectionReason) doc else doc in
    let doc := fold_left (sealDocument_drawField (widthOfTextAtSize E)) nonSignatureFields doc in
    doc ←
      (if hasSignatureField then
         doc ← match certificateData with
               | Some certificateData =>
                   certificate ← load E certificateData;
                   mret (fold_left addPage (pages certificate) doc)
               | None => mret doc
               end;
         mret (fold_left
                 (λ doc field, apply (InsertField (useLegacyFieldInsertion document) field) doc)
                 signatureFields doc)
       else mret doc);
    let doc := apply FlattenForm doc in
    pdfBuffer ← saveAndSign E doc;
    let name := path_parse_name E (title document) in
    let suffix := if isRejected then "_rejected.pdf" else "_signed.pdf" in
    newData ← putPdfFile E (name +:+ suffix) pdfBuffer;
    capture E (document_id document) isRejected;;
    transaction E (
      document_update E (document_id document) (completion (now E) isRejected);;
      documentData_update E (documentData_id documentData) (setData (data newData));;
      transactionId ← nanoid;
      documentAuditLog_create E
        (completedEntry (document_id document) requestMetadata transactionId
           isRejected rejectionReason));;
    when_ (sendEmail && negb isResealing) (completedEmail E documentId requestMetadata);;
    reloadAndTriggerWebhook E (document_id document) isRejected (λ _, document)
    end.

  (** Lines 324-328 of the handlers: the value of [shouldSendCompletedEmail]
      when it is tested. *)
Definition shouldSendCompletedEmail (sendEmail isResealing isRejected : bool)
      (documentStatus : DocumentStatus.t) : bool :=
    let shouldSendCompletedEmail := sendEmail && negb isResealing && negb isRejected in
    if isResealing && negb (isDocumentCompleted E documentStatus)
    then sendEmail else shouldSendCompletedEmail.

  (** The job handler [run] of
      packages/lib/jobs/definitions/internal/seal-document.handler.ts and of
      its wrapping copy; [drawText] is the one place where the two differ
      (lines 210-221 of the former, 210-243 of the latter). *)
Definition runWith (drawText : nat → Page num → Field num → list (PdfOp num))
      (payload : SealDocumentOptions) : M num () :=
    let sendEmail := default true (sendEmail payload) in
    let isResealing := default false (isResealing payload) in
    let requestMetadata := requestMetadata payload in
    let documentId := documentId payload in
    document ← document_findFirstOrThrow documentId;
    document_recipients ← recipient_findMany (document_id document) false;
    let isComplete :=
      existsb isRejectedRecipient document_recipients
      || forallb isSignedRecipient document_recipients in
    when_ (negb isComplete) (throw DocumentNotComplete);;
    documentStatus ←
      runTask get_document_status
        (λ v c, {| get_document_status := Some v;
                   get_document_data_id := get_document_data_id c;
                   decorate_and_sign_pdf := decorate_and_sign_pdf c;
                   update_document := update_document c;
                   send_completed_email := send_completed_email c |})
        (mret (status document));
    documentDataId ←
      runTask get_document_data_id
        (λ v c, {| get_document_status := get_document_status c;
                   get_document_data_id := Some v;
                   decorate_and_sign_pdf := decorate_and_sign_pdf c;
                   update_document := update_document c;
                   send_completed_email := send_completed_email c |})
        (mret (documentDataId document));
    documentData ← documentData_findFirst documentDataId;
    match documentData with
    | None => throw (NoDocumentData (document_id document))
    | Some documentData =>
    recipients ← recipient_findMany (document_id document) true;
    let rejectedRecipient := List.find isRejectedRecipient recipients in
    let isRejected := isSome rejectedRecipient in
    let rejectionReason := reasonOf rejectedRecipient in
    fields ← field_findMany (document_id document);
    when_ (negb isRejected && fieldsContainUnsignedRequiredField E fields)
      (throw (UnsignedRequiredFields (document_id document)));;
    let documentData := if isResealing then useInitialData documentData else documentData in
    when_ (negb (isSome (qrToken document)))
      (token ← nanoid;
       document_update E (document_id document) (setQrToken (prefixedId E "qr" token)));;
    pdfData ← getFile E documentData;
    let signatureFields := List.filter isSignatureField fields in
    let nonSignatureFields := List.filter isNonSignatureField fields in
    let hasSignatureField := Nat.ltb 0 (length signatureFields) in
    certificateData ←
      (if hasSignatureField && default true (includeSigningCertificate document)
       then certificate E documentId (language document) else mret None);
    newDataId ←
      runTask decorate_and_sign_pdf
        (λ v c, {| get_document_status := get_document_status c;
                   get_document_data_id := get_document_data_id c;
                   decorate_and_sign_pdf := Some v;
                   update_document := update_document c;
                   send_completed_email := send_completed_email c |})
        (pdfDoc ← load E pdfData;
         let pdfDoc := apply NormalizeSignatureAppearances pdfDoc in
         let pdfDoc := apply FlattenForm pdfDoc in
         let pdfDoc := apply FlattenAnnotations pdfDoc in
         let pdfDoc := if isRejected && truthy rejectionReason
                       then apply (RejectionStamp rejectionReason) pdfDoc else pdfDoc in
         let pdfDoc := fold_left (run_drawField drawText) nonSignatureFields pdfDoc in
         pdfDoc ←
           (if hasSignatureField then
              pdfDoc ← match certificateData with
                       | Some certificateData =>
                           certificateDoc ← load E certificateData;
                           mret (fold_left addPage (pages certificateDoc) pdfDoc)
                       | None => mret pdfDoc
                       end;
              mret (fold_left
                      (λ pdfDoc field,
                         if inserted field
                         then apply (InsertField (useLegacyFieldInsertion document) field) pdfDoc
                         else pdfDoc)
                      signatureFields pdfDoc)
            else mret pdfDoc);
         let pdfDoc := apply FlattenForm pdfDoc in
         pdfBuffer ← saveAndSign E pdfDoc;
         let name := path_parse_name E (title document) in
         let suffix := if isRejected then "_rejected.pdf" else "_signed.pdf" in
         documentData ← putPdfFile E (name +:+ suffix) pdfBuffer;
         mret (documentData_id documentData));
    capture E (document_id document) isRejected;;
    runTask update_document
      (λ v c, {| get_document_status := get_document_status c;
                 get_document_data_id := get_document_data_id c;
                 decorate_and_sign_pdf := decorate_and_sign_pdf c;
                 update_document := Some v;
                 send_completed_email := send_completed_email c |})
      (transaction E (
         newData ← documentData_findFirstOrThrow newDataId;
         document_update E (document_id document) (completion (now E) isRejected);;
         documentData_update E (documentData_id documentData) (setData (data newData));;
         transactionId ← nanoid;
         documentAuditLog_create E
           (completedEntry (document_id document) requestMetadata transactionId
              isRejected rejectionReason)));;
    runTask send_completed_email
      (λ v c, {| get_document_status := get_document_status c;
                 get_document_data_id := get_document_data_id c;
                 decorate_and_sign_pdf := decorate_and_sign_pdf c;
                 update_document := update_document c;
                 send_completed_email := Some v |})
      (when_ (shouldSendCompletedEmail sendEmail isResealing isRejected (status document))
         (completedEmail E documentId requestMetadata));;
    reloadAndTriggerWebhook E (document_id document) isRejected (λ updatedDocument, updatedDocument)
    end.

End Seal.

Module Handler.
  (** seal-document.handler.ts *)
Definition run {num : Type} `{Number num} (E : Env num) :=
    runWith E (drawCenteredText (num:=num)).
End Handler.

Module Wrapping.
  (** The copy of the handler that wraps the text of a field. *)
Definition run {num : Type} `{Number num} (E : Env num) :=
    runWith E (drawWrappedText (widthOfTextAtSize E)).
End Wrapping.

(** ** A concrete world for examples

    Numbers are rationals, every character is one unit wide at any size,
    and every collaborator answers. *)

Definition env0 : Env Q := {|
  fieldsContainUnsignedRequiredField := λ _, false;
  isDocumentCompleted := λ s, bool_decide (s = DocumentStatus.COMPLETED)
                              || bool_decide (s = DocumentStatus.REJECTED);
  getFileServerSide := λ dd, Some (data dd);
  getCertificatePdf := λ _ _, Some "certificate";
  PDFDocument_load := λ _, Some [ {| pageWidth := 600%Q; pageHeight := 800%Q |};
                                  {| pageWidth := 500%Q; pageHeight := 700%Q |} ];
  widthOfTextAtSize := unitFont;
  signPdf := λ doc, Some ("signed:" +:+ source doc);
  putPdfFileServerSide := λ name bytes,
    Some {| documentData_id := "dd2"; documentData_type := "BYTES_64";
            data := bytes; initialData := bytes |};
  path_parse_name := λ t, t;
  PostHogServerClient := false;
  statementFails := λ _, false;
  sendCompletedEmail := λ _ _, true;
  triggerWebhook := λ _ _, true;
  now := 1700000000%Z;
  prefixedId := λ p n, p +:+ "_token";
|}.


Definition document0 : Document := {|
  document_id := 1; title := "contract"; status := DocumentStatus.PENDING;
  completedAt := None; qrToken := Some "qr_0"; documentDataId := "dd1";
  useLegacyFieldInsertion := false; userId := 7; teamId := None;
  includeSigningCertificate := None; language := None |}.

Definition documentData0 : DocumentData := {|
  documentData_id := "dd1"; documentData_type := "BYTES_64";
  data := "current"; initialData := "initial" |}.

Definition recipient0 (r : RecipientRole.t) (s : SigningStatus.t) (reason : option string)
  : Recipient :=
  {| recipient_documentId := 1; role := r; signingStatus := s; rejectionReason := reason |}.

Definition world0 (recipients : list Recipient) (fields : list (Field Q)) : World Q := {|
  documentTable := [document0]; documentDataTable := [documentData0];
  recipientTable := recipients; fieldTable := fields; auditLogTable := [];
  statements := 0; nanoids := 0; calls := []; tasks := noTasks |}.

Definition options0 : SealDocumentOptions :=
  {| documentId := 1; sendEmail := None; isResealing := None; requestMetadata := None |}.

(** What was handed to the signer, oldest first. *)
Definition signedContents {num} (w : World num) : list (list (PdfOp num)) :=
  omap (λ c, match c with SignPdf doc => Some (content doc) | _ => None end)
       (rev (calls w)).

(** The documents for which a completion e-mail was asked. *)
Definition emails {num} (w : World num) : list Z :=
  omap (λ c, match c with SendCompletedEmail documentId _ => Some documentId | _ => None end)
       (rev (calls w)).

Definition signer_signed : Recipient :=
  recipient0 RecipientRole.SIGNER SigningStatus.SIGNED None.

Definition textField0 (p : Z) (ins : bool) (t : text) : Field Q := {|
  field_documentId := 1; type := FieldType.TEXT; page := p;
  positionX := 10%Q; positionY := 10%Q; width := 5%Q; height := 5%Q;
  inserted := ins; customText := t |}.

(** ** What is observed of a run *)






(** Nothing of the tables has changed, and no identifier was given back. *)
Definition quiet {num} (w w' : World num) : Prop :=
  documentTable w' = documentTable w ∧ documentDataTable w' = documentDataTable w
  ∧ auditLogTable w' = auditLogTable w ∧ nanoids w ≤ nanoids w'.











(** The world with another result stored for ['get-document-status']. *)
Definition setStatusTask {num} (v : option DocumentStatus.t) (w : World num) : World num :=
  with_tasks w
    {| get_document_status := v;
       get_document_data_id := get_document_data_id (tasks w);
       decorate_and_sign_pdf := decorate_and_sign_pdf (tasks w);
       update_document := update_document (tasks w);
       send_completed_email := send_completed_email (tasks w) |}.

(** Two worlds are the same up to the result stored for
    ['get-document-status'] when they are equal once it is erased. *)
Definition forgetStatusTask {num} (w : World num) : World num := setStatusTask None w.

(** A computation that neither reads nor writes the result stored for
    ['get-document-status']. *)
Definition oblivious {num A} (m : M num A) : Prop :=
  ∀ v w, m (setStatusTask v w) = ((m w).1, setStatusTask v (m w).2).

(** A computation whose outcome and writes are the same in worlds that are
    the same up to that result. *)
Definition independent {num A} (m : M num A) : Prop :=
  ∀ w1 w2, forgetStatusTask w1 = forgetStatusTask w2 →
    (m w1).1 = (m w2).1 ∧ forgetStatusTask (m w1).2 = forgetStatusTask (m w2).2.



(** Two runs agree: same outcome, same tables, same calls, and the same
    stored results but for ['get-document-status']. *)
Definition sameRun {num} (r1 r2 : Outcome () * World num) : Prop :=
  r1.1 = r2.1
  ∧ forgetStatusTask r1.2 = forgetStatusTask r2.2
  ∧ calls r1.2 = calls r2.2
  ∧ documentTable r1.2 = documentTable r2.2
  ∧ documentDataTable r1.2 = documentDataTable r2.2
  ∧ auditLogTable r1.2 = auditLogTable r2.2.


Definition world_stored (v : option DocumentStatus.t) : World Q :=
  setStatusTask v (world0 [signer_signed] []).

Definition resealing0 : SealDocumentOptions :=
  {| documentId := 1; sendEmail := None; isResealing := Some true; requestMetadata := None |}.

(** * Properties *)

(** ** Splitting and joining *)

Lemma split_nonempty sep s : split sep s ≠ [].
Proof. destruct s as [|c s]; simpl; [done|]. destruct (N.eqb c sep); [done|]. by destruct (split sep s). Qed.

Lemma split_free sep s : Forall (λ piece, sep ∉ piece) (split sep s).
Proof.
  induction s as [|c s IH]; simpl.
  - repeat constructor. by intros ?%elem_of_nil.
  - destruct (N.eqb_spec c sep) as [->|Hne].
    + constructor; [by intros ?%elem_of_nil | done].
    + destruct (split sep s) as [|piece pieces] eqn:Hs.
      * repeat constructor. by intros ->%list_elem_of_singleton.
      * inversion IH; subst. constructor; [|done].
        intros [?|?]%elem_of_cons; [congruence | done].
Qed.

Lemma split_keeps_free sep (c : char) s :
  c ∉ s → Forall (λ piece, c ∉ piece) (split sep s).
Proof.
  induction s as [|a s IH]; simpl; intros Hc.
  - repeat constructor. by intros ?%elem_of_nil.
  - apply not_elem_of_cons in Hc as [Hca Hcs]. specialize (IH Hcs).
    destruct (N.eqb a sep).
    + constructor; [by intros ?%elem_of_nil | done].
    + destruct (split sep s) as [|piece pieces].
      * repeat constructor. by intros ->%list_elem_of_singleton.
      * inversion IH; subst. constructor; [|done].
        intros [?|?]%elem_of_cons; [congruence | done].
Qed.

Lemma split_free_line sep l : sep ∉ l → split sep l = [l].
Proof.
  induction l as [|c l IH]; simpl; [done|]. intros [Hc Hl]%not_elem_of_cons.
  destruct (N.eqb_spec c sep); [congruence|]. by rewrite IH.
Qed.

Lemma split_app_sep sep l rest :
  sep ∉ l → split sep (l ++ sep :: rest) = l :: split sep rest.
Proof.
  induction l as [|c l IH]; simpl.
  - intros _. by rewrite N.eqb_refl.
  - intros [Hc Hl]%not_elem_of_cons.
    destruct (N.eqb_spec c sep); [congruence|]. by rewrite IH.
Qed.

(** Splitting what was joined gives the lines back, when no line holds the
    separator. *)
Lemma split_join sep lines :
  lines ≠ [] → Forall (λ l, sep ∉ l) lines → split sep (join sep lines) = lines.
Proof.
  induction lines as [|l ls IH]; [done|]. intros _ Hfree.
  inversion Hfree as [|? ? Hl Hls]; subst.
  destruct ls as [|l' ls'].
  - simpl. by apply split_free_line.
  - change (join sep (l :: l' :: ls')) with (l ++ sep :: join sep (l' :: ls')).
    rewrite split_app_sep; [|done]. by rewrite IH.
Qed.

(** ** The lines of [breakLongString] *)

Section TextLayoutFacts.
  Context {num : Type} `{Number num}.
  Variable font : text → num → num.
  Variables (maxWidth fontSize : num).

  (** What every pushed line is: empty, measured and found to fit, or one
      character. It never holds a line feed. *)
Definition lineOk (l : text) : Prop :=
    (LF ∉ l) ∧ (l = [] ∨ fits font maxWidth fontSize l = true ∨ ∃ c, l = [c]).

Lemma lineOk_nil : lineOk [].
  Proof. split; [by intros ?%elem_of_nil | by left]. Qed.

Lemma breakWord_ok word : ∀ lines charLine,
    LF ∉ word → Forall lineOk lines → lineOk charLine →
    Forall lineOk (breakWord font maxWidth fontSize word lines charLine).1
    ∧ lineOk (breakWord font maxWidth fontSize word lines charLine).2.
  Proof.
    induction word as [|c rest IH]; simpl; intros lines charLine Hfree Hlines Hcur; [done|].
    apply not_elem_of_cons in Hfree as [Hc Hrest].
    destruct (fits font maxWidth fontSize (charLine ++ [c])) eqn:Hfit.
    - apply IH; [done..|]. split; [|right; by left].
      intros [?|?%list_elem_of_singleton]%elem_of_app; [by apply Hcur | congruence].
    - apply IH; [done| |].
      + apply Forall_app; split; [done|]. by apply Forall_singleton.
      + split; [|right; right; by exists c].
        intros ?%list_elem_of_singleton. congruence.
  Qed.

Lemma wrapWords_ok words : ∀ lines currentLine,
    Forall (λ word, LF ∉ word) words → Forall lineOk lines → lineOk currentLine →
    Forall lineOk (wrapWords font maxWidth fontSize words lines currentLine).1
    ∧ lineOk (wrapWords font maxWidth fontSize words lines currentLine).2.
  Proof.
    induction words as [|word rest IH]; simpl; intros lines currentLine Hfree Hlines Hcur; [done|].
    inversion Hfree as [|? ? Hword Hrest]; subst.
    set (lineWithWord := if Nat.eqb (length currentLine) 0 then word
                         else currentLine ++ SPACE :: word).
    assert (LF ∉ lineWithWord) as HfreeL.
    { unfold lineWithWord. destruct (Nat.eqb (length currentLine) 0); [done|].
      intros [?|[?|?]%elem_of_cons]%elem_of_app; [by apply Hcur | discriminate | done]. }
    destruct (fits font maxWidth fontSize lineWithWord) eqn:Hfit.
    { apply IH; [done..|]. split; [done | right; by left]. }
    assert (Forall lineOk
              (if Nat.ltb 0 (length currentLine) then (lines ++ [currentLine], [])
               else (lines, currentLine)).1) as Hlines1.
    { destruct (Nat.ltb 0 (length currentLine)); simpl; [|done].
      apply Forall_app; split; [done|]. by apply Forall_singleton. }
    destruct (if Nat.ltb 0 (length currentLine) then (lines ++ [currentLine], [])
              else (lines, currentLine)) as [lines1 currentLine1].
    simpl in Hlines1.
    destruct (fits font maxWidth fontSize word) eqn:Hfitw.
    { apply IH; [done..|]. split; [done | right; by left]. }
    pose proof (breakWord_ok word lines1 [] Hword Hlines1 lineOk_nil) as [Hb1 Hb2].
    destruct (breakWord font maxWidth fontSize word lines1 []) as [lines2 charLine].
    by apply IH.
  Qed.

Lemma wrapParagraph_ok lines paragraph :
    LF ∉ paragraph → Forall lineOk lines →
    Forall lineOk (wrapParagraph font maxWidth fontSize lines paragraph).
  Proof.
    intros Hfree Hlines. unfold wrapParagraph.
    destruct (bool_decide (paragraph = []) || fits font maxWidth fontSize paragraph) eqn:Hfit.
    - apply Forall_app; split; [done|]. apply Forall_singleton. split; [done|].
      apply orb_true_iff in Hfit as [Hnil%bool_decide_eq_true | Hfit]; [by left | right; by left].
    - pose proof (wrapWords_ok (split SPACE paragraph) lines []
                    (split_keeps_free SPACE LF paragraph Hfree) Hlines lineOk_nil) as [Hw1 Hw2].
      destruct (wrapWords font maxWidth fontSize (split SPACE paragraph) lines [])
        as [lines1 currentLine].
      simpl in Hw1, Hw2. destruct (Nat.ltb 0 (length currentLine)); [|done].
      apply Forall_app; split; [done|]. by apply Forall_singleton.
  Qed.

Lemma fold_wrapParagraph_ok paragraphs : ∀ lines,
    Forall (λ p, LF ∉ p) paragraphs → Forall lineOk lines →
    Forall lineOk (fold_left (wrapParagraph font maxWidth fontSize) paragraphs lines).
  Proof.
    induction paragraphs as [|p ps IH]; simpl; intros lines Hfree Hlines; [done|].
    inversion Hfree; subst. apply IH; [done|]. by apply wrapParagraph_ok.
  Qed.

Lemma wrappedLines_ok t :
    Forall lineOk (wrappedLines font maxWidth fontSize t).
  Proof.
    unfold wrappedLines, breakLongString.
    destruct (bool_decide (t = [])).
    { apply Forall_singleton, lineOk_nil. }
    pose proof (fold_wrapParagraph_ok (split LF t) [] (split_free LF t) (List.Forall_nil _)) as Hok.
    destruct (fold_left (wrapParagraph font maxWidth fontSize) (split LF t) []) as [|l ls] eqn:Hlines.
    { apply Forall_singleton, lineOk_nil. }
    rewrite split_join; [done..|].
    eapply Forall_impl; [exact Hok|]. by intros ? [? _].
  Qed.

End TextLayoutFacts.

(** C3, as the code has it: every line produced by [breakLongString] that
    is not empty measures at most [maxWidth], except a line of a single
    character that is itself wider than [maxWidth]. Empty lines are pushed
    without being measured. *)
Theorem breakLongString_lines_fit {num : Type} `{Number num}
    (font : text → num → num) (maxWidth fontSize : num) (t l : text) :
  l ∈ wrappedLines font maxWidth fontSize t →
  l = []
  ∨ leb (font l fontSize) maxWidth = true
  ∨ ∃ c, l = [c] ∧ leb (font [c] fontSize) maxWidth = false.
Proof.
  intros Hl.
  pose proof (wrappedLines_ok font maxWidth fontSize t) as Hok.
  rewrite Forall_forall in Hok. destruct (Hok l Hl) as [_ [Hnil | [Hfit | [c ->]]]].
  - by left.
  - right; by left.
  - destruct (leb (font [c] fontSize) maxWidth) eqn:Hc.
    + right; by left.
    + right; right. by exists c.
Qed.

Lemma breakLongString_lines_fit_witness :
  wrappedLines unitFont 2%Q 8%Q (chars "ab cd") = [chars "ab"; chars "cd"]
  ∧ (chars "cd" = []
     ∨ leb (unitFont (chars "cd") 8%Q) 2%Q = true
     ∨ ∃ c, chars "cd" = [c] ∧ leb (unitFont [c] 8%Q) 2%Q = false).
Proof.
  split; [by vm_compute|].
  apply (breakLongString_lines_fit unitFont 2%Q 8%Q (chars "ab cd") (chars "cd")).
  change (wrappedLines unitFont 2%Q 8%Q (chars "ab cd")) with [chars "ab"; chars "cd"].
  right. left.
Defined.

(** C3 as it is worded fails on a field narrower than its padding, where
    [maxWidth] is negative: the empty line kept for an empty paragraph is
    wider than [maxWidth] and is not a single character. *)
Lemma breakLongString_empty_line_too_wide :
  ¬ (∀ (font : text → Q → Q) (maxWidth fontSize : Q) (t l : text),
       l ∈ wrappedLines font maxWidth fontSize t →
       leb (font l fontSize) maxWidth = true
       ∨ ∃ c, l = [c] ∧ leb (font [c] fontSize) maxWidth = false).
Proof.
  intros Hall.
  destruct (Hall unitFont (-1)%Q 8%Q (chars "a" ++ [LF; LF] ++ chars "b") []) as [Hfit | [c [Hc _]]].
  - vm_compute. do 2 right. left.
  - vm_compute in Hfit. discriminate.
  - discriminate.
Qed.

(** *** Paragraphs are wrapped one by one *)

Section Paragraphs.
  Context {num : Type} `{Number num}.
  Variable font : text → num → num.
  Variables (maxWidth fontSize : num).

Lemma breakWord_app word : ∀ lines charLine,
    breakWord font maxWidth fontSize word lines charLine
    = (lines ++ (breakWord font maxWidth fontSize word [] charLine).1,
       (breakWord font maxWidth fontSize word [] charLine).2).
  Proof.
    induction word as [|c rest IH]; simpl; intros lines charLine.
    - by rewrite app_nil_r.
    - destruct (fits font maxWidth fontSize (charLine ++ [c])); [apply IH|].
      rewrite (IH (lines ++ [charLine])), (IH [charLine]). simpl. by rewrite <- app_assoc.
  Qed.

Lemma wrapWords_app words : ∀ lines currentLine,
    wrapWords font maxWidth fontSize words lines currentLine
    = (lines ++ (wrapWords font maxWidth fontSize words [] currentLine).1,
       (wrapWords font maxWidth fontSize words [] currentLine).2).
  Proof.
    induction words as [|word rest IH]; simpl; intros lines currentLine.
    - by rewrite app_nil_r.
    - destruct (fits font maxWidth fontSize
                  (if Nat.eqb (length currentLine) 0 then word
                   else currentLine ++ SPACE :: word)); [apply IH|].
      destruct (Nat.ltb 0 (length currentLine)); simpl.
      + destruct (fits font maxWidth fontSize word).
        * rewrite (IH (lines ++ [currentLine])), (IH [currentLine]). simpl.
          by rewrite <- app_assoc.
        * rewrite (breakWord_app word (lines ++ [currentLine])), (breakWord_app word [currentLine]).
          destruct (breakWord font maxWidth fontSize word [] []) as [pushed charLine]. simpl.
          rewrite (IH ((lines ++ [currentLine]) ++ pushed)), (IH (currentLine :: pushed)). simpl.
          by rewrite <- !app_assoc.
      + destruct (fits font maxWidth fontSize word); [apply IH|].
        rewrite (breakWord_app word lines).
        destruct (breakWord font maxWidth fontSize word [] []) as [pushed charLine]. simpl.
        rewrite (IH (lines ++ pushed)), (IH pushed). simpl. by rewrite <- app_assoc.
  Qed.

Lemma wrapParagraph_app lines paragraph :
    wrapParagraph font maxWidth fontSize lines paragraph
    = lines ++ wrapParagraph font maxWidth fontSize [] paragraph.
  Proof.
    unfold wrapParagraph.
    destruct (bool_decide (paragraph = []) || fits font maxWidth fontSize paragraph); [done|].
    rewrite (wrapWords_app _ lines).
    destruct (wrapWords font maxWidth fontSize (split SPACE paragraph) [] [])
      as [pushed currentLine]. simpl.
    destruct (Nat.ltb 0 (length currentLine)); [|done]. by rewrite <- app_assoc.
  Qed.

  (** What comes out is the lines of the first paragraph, then those of
      the second, and so on. *)
Lemma fold_wrapParagraph paragraphs : ∀ lines,
    fold_left (wrapParagraph font maxWidth fontSize) paragraphs lines
    = lines ++ concat (List.map (wrapParagraph font maxWidth fontSize []) paragraphs).
  Proof.
    induction paragraphs as [|p ps IH]; simpl; intros lines.
    - by rewrite app_nil_r.
    - rewrite IH, wrapParagraph_app. by rewrite <- app_assoc.
  Qed.

  (** An empty paragraph gives one empty line. *)
Lemma wrapParagraph_empty : wrapParagraph font maxWidth fontSize [] [] = [[]].
  Proof. reflexivity. Qed.

  (** Whatever the width, the lines of ["a\n\nb"] are those of ["a"], an
      empty line, and those of ["b"]. *)
Lemma blank_line_between_a_and_b :
    wrappedLines font maxWidth fontSize (chars "a" ++ [LF; LF] ++ chars "b")
    = wrapParagraph font maxWidth fontSize [] (chars "a")
      ++ [] :: wrapParagraph font maxWidth fontSize [] (chars "b").
  Proof.
    pose proof (split_free LF (chars "a" ++ [LF; LF] ++ chars "b")) as Hfree.
    unfold wrappedLines, breakLongString.
    rewrite bool_decide_eq_false_2 by done.
    change (split LF (chars "a" ++ [LF; LF] ++ chars "b"))
      with [chars "a"; []; chars "b"] in *.
    pose proof (fold_wrapParagraph_ok font maxWidth fontSize _ [] Hfree (List.Forall_nil _)) as Hok.
    rewrite fold_wrapParagraph in *. simpl in *. rewrite app_nil_r in *.
    apply split_join.
    - intros [_ ?]%app_eq_nil. discriminate.
    - eapply Forall_impl; [exact Hok|]. by intros ? [? _].
  Qed.

End Paragraphs.

(** C7, evaluated where the code loses a paragraph: the three paragraphs
    ["a"], three spaces, ["b"] come back as the two lines ["a"] and ["b"]
    when the width is 2: every word of the middle paragraph is empty, so
    no line is pushed for it and one of the two line feeds is gone. *)
Theorem breakLongString_drops_blank_paragraph :
  split LF (chars "a" ++ [LF] ++ chars "   " ++ [LF] ++ chars "b")
    = [chars "a"; chars "   "; chars "b"]
  ∧ breakLongString unitFont 2%Q 8%Q (chars "a" ++ [LF] ++ chars "   " ++ [LF] ++ chars "b")
    = chars "a" ++ [LF] ++ chars "b"
  ∧ wrapParagraph unitFont 2%Q 8%Q [] (chars "   ") = [].
Proof. vm_compute. done. Qed.

(** ** The field renderer *)

Lemma applyAll_nil {num} (doc : PdfDoc num) : applyAll [] doc = doc.
Proof. destruct doc. unfold applyAll. simpl. by rewrite app_nil_r. Qed.

(** A page number beyond the last page finds no page. *)
Lemma at_beyond {A} (l : list A) (p : Z) :
  (Z.of_nat (length l) < p)%Z → at_ l (p - 1) = None.
Proof.
  intros Hp. unfold at_, at_index.
  destruct (Z.ltb_spec (p - 1) 0); [lia|].
  destruct (Z.ltb_spec (p - 1) 0); [lia|].
  destruct (Z.leb_spec (Z.of_nat (length l)) (p - 1)); [done | lia].
Qed.

(** A page number from 1 to the number of pages finds that page. *)
Lemma at_within {A} (l : list A) (p : Z) :
  (1 ≤ p ≤ Z.of_nat (length l))%Z →
  ∃ x, l !! Z.to_nat (p - 1) = Some x ∧ at_ l (p - 1) = Some (Z.to_nat (p - 1), x).
Proof.
  intros Hp. unfold at_, at_index.
  destruct (Z.ltb_spec (p - 1) 0); [lia|].
  destruct (Z.ltb_spec (p - 1) 0); [lia|].
  destruct (Z.leb_spec (Z.of_nat (length l)) (p - 1)); [lia|]. simpl.
  destruct (lookup_lt_is_Some_2 l (Z.to_nat (p - 1))) as [x Hx]; [lia|].
  exists x. by rewrite Hx.
Qed.

Section RendererFacts.
  Context {num : Type} `{Number num}.
  Variable font : text → num → num.

  (** The handlers' loop leaves the document alone for a field that is not
      inserted, has no text, or names a page beyond the last one. *)
Lemma run_drawField_skips drawText (doc : PdfDoc num) (field : Field num) :
    (drawText = drawWrappedText font ∨ drawText = drawCenteredText) →
    inserted field = false ∨ customText field = []
      ∨ (Z.of_nat (length (pages doc)) < page field)%Z →
    run_drawField drawText doc field = doc.
  Proof.
    intros Hdraw Hskip. unfold run_drawField.
    destruct (inserted field); simpl; [|done].
    destruct Hskip as [? | [Hnil | Hpage]]; [done | |].
    - destruct (at_ (pages doc) (page field - 1)) as [[k pg]|]; [|done].
      destruct Hdraw as [-> | ->]; unfold drawWrappedText, drawCenteredText;
        rewrite Hnil; apply applyAll_nil.
    - by rewrite at_beyond.
  Qed.

  (** Such a field does not disturb the rendering of the others. *)
Lemma run_drawField_skipped_among drawText (doc : PdfDoc num) before field after :
    (drawText = drawWrappedText font ∨ drawText = drawCenteredText) →
    inserted field = false ∨ customText field = []
      ∨ (Z.of_nat (length (pages doc)) < page field)%Z →
    fold_left (run_drawField drawText) (before ++ field :: after) doc
    = fold_left (run_drawField drawText) (before ++ after) doc.
  Proof.
    intros Hdraw Hskip. rewrite !fold_left_app. simpl. f_equal.
    apply run_drawField_skips; [done|].
    assert (∀ fs d, pages (fold_left (run_drawField drawText) fs d) = pages d) as Hpages.
    { induction fs as [|f fs IH]; intros d; simpl; [done|]. rewrite IH.
      unfold run_drawField. destruct (negb (inserted f)); [done|].
      by destruct (at_ (pages d) (page f - 1)) as [[??]|]. }
    by rewrite Hpages.
  Qed.

  (** The cursor after [i] lines. *)
Definition cursor (lineHeight currentY : num) (i : nat) : num :=
    Nat.iter i (λ y, sub y lineHeight) currentY.

Lemma cursor_S lineHeight currentY i :
    cursor lineHeight currentY (S i) = cursor lineHeight (sub currentY lineHeight) i.
  Proof. unfold cursor. by rewrite Nat.iter_succ_r. Qed.

  (** The lines are drawn from the first on, one line height apart, up to
      the first whose cursor is below the floor. *)
Lemma drawLines_spec k x floor lineHeight fontSize lines : ∀ currentY,
    ∃ n, n ≤ length lines
      ∧ drawLines k x floor lineHeight fontSize lines currentY
        = imap (λ i line, DrawText k line x (cursor lineHeight currentY i) fontSize)
               (take n lines)
      ∧ (∀ i, i < n → ltb (cursor lineHeight currentY i) floor = false)
      ∧ (n < length lines → ltb (cursor lineHeight currentY n) floor = true).
  Proof.
    induction lines as [|line rest IH]; intros currentY; simpl.
    - exists 0. repeat split; [lia..].
    - destruct (ltb currentY floor) eqn:Hlow.
      + exists 0. repeat split; [lia | lia | done].
      + destruct (IH (sub currentY lineHeight)) as (n & Hn & Hdraw & Hup & Hstop).
        exists (S n). repeat split.
        * lia.
        * change (take (S n) (line :: rest)) with (line :: take n rest).
          rewrite imap_cons, Hdraw. f_equal. apply imap_ext. intros i l _.
          unfold compose. by rewrite cursor_S.
        * intros [|i] Hi; [done|]. rewrite cursor_S. apply Hup. lia.
        * intros Hlt. rewrite cursor_S. apply Hstop. lia.
  Qed.

  (** C6 for the code that wraps: [breakLongString] is applied once, to
      the text, with the field's width less twice the padding of 4 and the
      font size 8; its lines are drawn at [fieldX + padding], from
      [invertedY + fieldHeight - padding - fontSize] down in steps of
      [fontSize * 1.2], and drawing stops at the first line whose cursor is
      below [invertedY + padding]. *)
Lemma drawWrappedText_spec (k : nat) (page : Page num) (field : Field num) :
    customText field ≠ [] →
    let fieldWidth := mul (pageWidth page) (div (width field) (lit 100%Q)) in
    let fieldHeight := mul (pageHeight page) (div (height field) (lit 100%Q)) in
    let fieldX := mul (pageWidth page) (div (positionX field) (lit 100%Q)) in
    let fieldY := mul (pageHeight page) (div (positionY field) (lit 100%Q)) in
    let invertedY := sub (sub (pageHeight page) fieldY) fieldHeight in
    let lines := split LF (breakLongString font (sub fieldWidth (mul (lit 4%Q) (lit 2%Q)))
                             (lit 8%Q) (customText field)) in
    let y := cursor (mul (lit 8%Q) (lit 1.2%Q))
               (sub (sub (add invertedY fieldHeight) (lit 4%Q)) (lit 8%Q)) in
    ∃ n, n ≤ length lines
      ∧ drawWrappedText font k page field
        = imap (λ i line, DrawText k line (add fieldX (lit 4%Q)) (y i) (lit 8%Q))
               (take n lines)
      ∧ (∀ i, i < n → ltb (y i) (add invertedY (lit 4%Q)) = false)
      ∧ (n < length lines → ltb (y n) (add invertedY (lit 4%Q)) = true).
  Proof.
    intros Htext. simpl. unfold drawWrappedText, truthyText.
    rewrite bool_decide_eq_false_2 by done. simpl.
    apply drawLines_spec.
  Qed.

End RendererFacts.

(** C5, evaluated where [sealDocument] departs from it: a text field that
    is not inserted is drawn all the same (the handlers skip it), and a
    field of page 0 is not skipped but drawn on the last page, by all
    three. *)
Theorem sealDocument_draws_field_not_inserted :
  signedContents
    (sealDocument env0 options0 (world0 [signer_signed] [textField0 1 false (chars "x")])).2
  = [[NormalizeSignatureAppearances; FlattenForm; FlattenAnnotations;
      DrawText 0 (chars "x") (600 * (10 / 100) + 4)%Q
        (800 - 800 * (10 / 100) - 800 * (5 / 100) + 800 * (5 / 100) - 4 - 8)%Q 8%Q;
      FlattenForm]]
  ∧ signedContents
      (Wrapping.run env0 options0 (world0 [signer_signed] [textField0 1 false (chars "x")])).2
    = [[NormalizeSignatureAppearances; FlattenForm; FlattenAnnotations; FlattenForm]]
  ∧ signedContents
      (Wrapping.run env0 options0 (world0 [signer_signed] [textField0 0 true (chars "x")])).2
    = [[NormalizeSignatureAppearances; FlattenForm; FlattenAnnotations;
        DrawText 1 (chars "x") (500 * (10 / 100) + 4)%Q
          (700 - 700 * (10 / 100) - 700 * (5 / 100) + 700 * (5 / 100) - 4 - 8)%Q 8%Q;
        FlattenForm]].
Proof. vm_compute. done. Qed.

(** C6, evaluated where the handler departs from it: the text of the
    field, 34 characters for an available width of 22, is drawn by
    [Handler.run] as one line, at [fieldX + 2] and centred vertically; the
    wrapping copy draws it as two lines from the top of the field. *)
Theorem run_draws_text_on_one_line :
  signedContents
    (Handler.run env0 options0
       (world0 [signer_signed] [textField0 1 true (chars "Approved by Jane Doe on 2024-01-01")])).2
  = [[NormalizeSignatureAppearances; FlattenForm; FlattenAnnotations;
      DrawText 0 (chars "Approved by Jane Doe on 2024-01-01") (600 * (10 / 100) + 2)%Q
        (800 - 800 * (10 / 100) - 800 * (5 / 100) + 800 * (5 / 100) / 2 - 8 / 2)%Q 8%Q;
      FlattenForm]]
  ∧ signedContents
      (Wrapping.run env0 options0
         (world0 [signer_signed] [textField0 1 true (chars "Approved by Jane Doe on 2024-01-01")])).2
    = [[NormalizeSignatureAppearances; FlattenForm; FlattenAnnotations;
        DrawText 0 (chars "Approved by Jane Doe") (600 * (10 / 100) + 4)%Q
          (800 - 800 * (10 / 100) - 800 * (5 / 100) + 800 * (5 / 100) - 4 - 8)%Q 8%Q;
        DrawText 0 (chars "on 2024-01-01") (600 * (10 / 100) + 4)%Q
          (800 - 800 * (10 / 100) - 800 * (5 / 100) + 800 * (5 / 100) - 4 - 8 - 8 * 1.2)%Q 8%Q;
        FlattenForm]].
Proof. vm_compute. done. Qed.

(** ** The completion check *)

Lemma find_none_Forall {A} (p : A → bool) (l : list A) :
  Forall (λ x, p x = false) l → List.find p l = None.
Proof. induction 1 as [|x l Hx _ IH]; simpl; [done|]. by rewrite Hx. Qed.

Lemma existsb_Exists {A} (p : A → bool) (l : list A) :
  Exists (λ x, p x = true) l → existsb p l = true.
Proof.
  induction 1 as [x l Hx | x l _ IH]; simpl; [by rewrite Hx|].
  rewrite IH. apply orb_true_r.
Qed.

Ltac run_head :=
  cbv beta iota zeta delta
    [mbind M_bind mret M_ret throw await when_ query
     document_findFirstOrThrow documentData_findFirst documentData_findFirstOrThrow
     recipient_findMany field_findMany].

(** [sealDocument] does what C1 asks: without a rejection among the
    recipients that are not CC, one of them that has not signed makes it
    throw before anything is read from storage, drawn or written. The CC
    recipients are not looked at. *)
Lemma sealDocument_unsigned_recipients {num} `{Number num} (E : Env num) opts w d dd :
  documentOf w (documentId opts) = Some d →
  documentDataOf w (documentDataId d) = Some dd →
  Forall (λ r, signingStatus r ≠ SigningStatus.REJECTED) (recipientsOf w (document_id d) true) →
  Exists (λ r, signingStatus r ≠ SigningStatus.SIGNED) (recipientsOf w (document_id d) true) →
  sealDocument E opts w = (Throw (UnsignedRecipients (document_id d)), w).
Proof.
  intros Hd Hdd Hrej Hun.
  unfold sealDocument. run_head.
  rewrite Hd. cbv beta iota. rewrite Hdd. cbv beta iota.
  rewrite find_none_Forall, existsb_Exists; [done | |].
  - eapply Exists_impl; [exact Hun|]. intros r Hr. unfold isSignedRecipient.
    by rewrite bool_decide_eq_false_2.
  - eapply Forall_impl; [exact Hrej|]. intros r Hr. unfold isRejectedRecipient.
    by rewrite bool_decide_eq_false_2.
Qed.

(** C1, evaluated where the handlers depart from it: their completion
    check runs over all the recipients of the document. A CC recipient
    that is pending makes [run] throw although every signer has signed,
    and a rejection recorded on a CC recipient lets [run] seal, as
    COMPLETED, a document whose signer is still pending. [sealDocument]
    completes the first document and refuses the second. *)
Theorem run_completion_check_counts_cc :
  let cc_pending := world0 [signer_signed;
                            recipient0 RecipientRole.CC SigningStatus.PENDING None] [] in
  let cc_rejected := world0 [recipient0 RecipientRole.SIGNER SigningStatus.PENDING None;
                             recipient0 RecipientRole.CC SigningStatus.REJECTED None] [] in
  Handler.run env0 options0 cc_pending = (Throw DocumentNotComplete, cc_pending)
  ∧ Wrapping.run env0 options0 cc_pending = (Throw DocumentNotComplete, cc_pending)
  ∧ (sealDocument env0 options0 cc_pending).1 = Return ()
  ∧ (Handler.run env0 options0 cc_rejected).1 = Return ()
  ∧ status <$> documentOf (Handler.run env0 options0 cc_rejected).2 1
    = Some DocumentStatus.COMPLETED
  ∧ (Wrapping.run env0 options0 cc_rejected).1 = Return ()
  ∧ sealDocument env0 options0 cc_rejected = (Throw (UnsignedRecipients 1), cc_rejected).
Proof. vm_compute. done. Qed.

(** ** The completion e-mail *)

(** The handlers decide as C4 says: outside a reseal the e-mail goes out
    when [sendEmail] holds and the document is not rejected; on a reseal it
    goes out when [sendEmail] holds and the document was not completed
    before. *)
Lemma shouldSendCompletedEmail_spec {num} (E : Env num)
    (sendEmail isResealing isRejected : bool) (documentStatus : DocumentStatus.t) :
  shouldSendCompletedEmail E sendEmail isResealing isRejected documentStatus
  = if isResealing then sendEmail && negb (isDocumentCompleted E documentStatus)
    else sendEmail && negb isRejected.
Proof.
  unfold shouldSendCompletedEmail.
  by destruct sendEmail, isResealing, isRejected, (isDocumentCompleted E documentStatus).
Qed.

(** C4, evaluated where [sealDocument] departs from it: it asks for the
    completion e-mail of a rejected document, and it asks for none on the
    reseal of a document that was still pending; the handler does the
    opposite in both cases. *)
Theorem sealDocument_completion_email :
  let rejected := world0 [recipient0 RecipientRole.SIGNER SigningStatus.REJECTED (Some "no")] [] in
  let signed := world0 [signer_signed] [] in
  let resealing := {| documentId := 1; sendEmail := None; isResealing := Some true;
                      requestMetadata := None |} in
  emails (sealDocument env0 options0 rejected).2 = [1%Z]
  ∧ status <$> documentOf (sealDocument env0 options0 rejected).2 1
    = Some DocumentStatus.REJECTED
  ∧ emails (Handler.run env0 options0 rejected).2 = []
  ∧ emails (sealDocument env0 resealing signed).2 = []
  ∧ emails (Handler.run env0 resealing signed).2 = [1%Z].
Proof. vm_compute. done. Qed.

(** ** Tables *)





(** ** A program logic for the pipeline *)

Section Hoare.
Context {num : Type}.










End Hoare.





Lemma quiet_refl {num} (w : World num) : quiet w w.
Proof. by repeat split. Qed.

Lemma quiet_trans {num} (w1 w2 w3 : World num) : quiet w1 w2 → quiet w2 w3 → quiet w1 w3.
Proof.
  intros (?&?&?&?) (?&?&?&?). repeat split; [congruence..|lia].
Qed.


(** ** What one step does *)

Section Steps.
Context {num : Type} (E : Env num).












End Steps.





(** ** The seal is all or nothing *)





(** ** What is read, signed and stamped *)

(** ** Stamps *)













(** ** Calls *)








Section Silent.
Context {num : Type} (E : Env num).






End Silent.



(** ** With collaborators that answer, the seal returns *)



Lemma hasDataId_update id id' (f : DocumentData → DocumentData) x :
  (∀ d, documentData_id (f d) = documentData_id d) →
  hasDataId id' (if hasDataId id x then f x else x) = hasDataId id' x.
Proof. intros Hf. unfold hasDataId. destruct (bool_decide (documentData_id x = id)); by rewrite ?Hf. Qed.





(** ** The result stored for the document status is not used *)

Section Oblivious.
Context {num : Type} (E : Env num).

Lemma oblivious_independent {A} (m : M num A) : oblivious m → independent m.
Proof.
  intros Hm w1 w2 Hw.
  unfold forgetStatusTask in *.
  pose proof (Hm None w1) as H1. pose proof (Hm None w2) as H2.
  rewrite Hw, H2 in H1.
  split; [exact (eq_sym (f_equal fst H1)) | exact (eq_sym (f_equal snd H1))].
Qed.

Lemma independent_bind {A B} (m : M num A) (k : A → M num B) :
  independent m → (∀ a, independent (k a)) → independent (m ≫= k).
Proof.
  intros Hm Hk w1 w2 Hw. destruct (Hm w1 w2 Hw) as [Hr Hw']. unfold mbind, M_bind.
  destruct (m w1) as [r1 w1'], (m w2) as [r2 w2']. simpl in *. subst r2.
  destruct r1; [by apply Hk | done].
Qed.

(** The continuation does not look at the result. *)
Lemma independent_bind_unused {A B} (m : M num A) (rest : M num B) :
  (∀ w1 w2, forgetStatusTask w1 = forgetStatusTask w2 →
     match (m w1).1, (m w2).1 with
     | Return _, Return _ => True
     | Throw e1, Throw e2 => e1 = e2
     | _, _ => False
     end ∧ forgetStatusTask (m w1).2 = forgetStatusTask (m w2).2) →
  independent rest → independent (m ≫= λ _, rest).
Proof.
  intros Hm Hrest w1 w2 Hw. destruct (Hm w1 w2 Hw) as [Hr Hw']. unfold mbind, M_bind.
  destruct (m w1) as [[a1|e1] w1'], (m w2) as [[a2|e2] w2']; simpl in *;
    [by apply Hrest | done | done | by subst].
Qed.

Lemma oblivious_bind {A B} (m : M num A) (k : A → M num B) :
  oblivious m → (∀ a, oblivious (k a)) → oblivious (m ≫= k).
Proof.
  intros Hm Hk v w. unfold mbind, M_bind. rewrite Hm.
  destruct (m w) as [[a|e] w']; simpl; [apply Hk | done].
Qed.

Lemma oblivious_query {A} (f : World num → Outcome A) :
  (∀ v w, f (setStatusTask v w) = f w) → oblivious (query f).
Proof. intros Hf v w. unfold query. by rewrite Hf. Qed.

Lemma oblivious_ret {A} (a : A) : oblivious (mret a : M num A).
Proof. done. Qed.

Lemma oblivious_throw {A} e : oblivious (throw e : M num A).
Proof. done. Qed.

Lemma oblivious_when (b : bool) (m : M num ()) : oblivious m → oblivious (when_ b m).
Proof. destruct b; [done | intros; apply oblivious_ret]. Qed.

Lemma oblivious_call c : oblivious (call c : M num ()).
Proof. done. Qed.

Lemma oblivious_nanoid : oblivious (nanoid : M num nat).
Proof. done. Qed.

Lemma oblivious_await {A} by_ (o : option A) : oblivious (await by_ o : M num A).
Proof. done. Qed.

Lemma oblivious_statement : oblivious (statement E).
Proof. intros v w. unfold statement. simpl. by destruct (statementFails E (statements w)). Qed.

Lemma oblivious_document_update id f : oblivious (document_update E id f).
Proof.
  apply oblivious_bind; [apply oblivious_statement|]. intros _ v w.
  unfold documentOf. simpl. by destruct (List.find (hasId id) (documentTable w)).
Qed.

Lemma oblivious_documentData_update id f : oblivious (documentData_update E id f).
Proof.
  apply oblivious_bind; [apply oblivious_statement|]. intros _ v w.
  unfold documentDataOf. simpl. by destruct (List.find (hasDataId id) (documentDataTable w)).
Qed.

Lemma oblivious_documentData_create row : oblivious (documentData_create E row).
Proof.
  apply oblivious_bind; [apply oblivious_statement|]. intros _ v w.
  unfold documentDataOf. simpl.
  by destruct (List.find (hasDataId (documentData_id row)) (documentDataTable w)).
Qed.

Lemma oblivious_documentAuditLog_create entry : oblivious (documentAuditLog_create E entry).
Proof. apply oblivious_bind; [apply oblivious_statement | done]. Qed.

Lemma oblivious_transaction {A} (body : M num A) :
  oblivious body → oblivious (transaction E body).
Proof.
  intros Hbody v w. unfold transaction.
  assert (oblivious (body ≫= λ a, statement E;; mret a)) as Hs.
  { apply oblivious_bind; [done|]. intros a.
    apply oblivious_bind; [apply oblivious_statement | intros; apply oblivious_ret]. }
  rewrite Hs. by destruct ((body ≫= _) w) as [[a|e] w'].
Qed.

Lemma oblivious_getFile dd : oblivious (getFile E dd).
Proof. apply oblivious_bind; [apply oblivious_call | intros; apply oblivious_await]. Qed.

Lemma oblivious_certificate id lang : oblivious (certificate E id lang).
Proof. apply oblivious_bind; [apply oblivious_call | intros; apply oblivious_ret]. Qed.

Lemma oblivious_load bytes : oblivious (load E bytes).
Proof. apply oblivious_bind; [apply oblivious_await | intros; apply oblivious_ret]. Qed.

Lemma oblivious_saveAndSign doc : oblivious (saveAndSign E doc).
Proof. apply oblivious_bind; [apply oblivious_call | intros; apply oblivious_await]. Qed.

Lemma oblivious_putPdfFile name bytes : oblivious (putPdfFile E name bytes).
Proof.
  apply oblivious_bind; [apply oblivious_call | intros _].
  apply oblivious_bind; [apply oblivious_await | intros; apply oblivious_documentData_create].
Qed.

Lemma oblivious_capture id rejected : oblivious (capture E id rejected).
Proof.
  apply oblivious_when, oblivious_bind; [apply oblivious_nanoid | intros; apply oblivious_call].
Qed.

Lemma oblivious_completedEmail id md : oblivious (completedEmail E id md).
Proof.
  apply oblivious_bind; [apply oblivious_call | intros _].
  destruct (sendCompletedEmail E id md); [apply oblivious_ret | apply oblivious_throw].
Qed.

Lemma oblivious_reloadAndTriggerWebhook id rejected owner :
  oblivious (reloadAndTriggerWebhook E id rejected owner).
Proof.
  unfold reloadAndTriggerWebhook.
  apply oblivious_bind; [by apply oblivious_query | intros u].
  apply oblivious_bind; [by apply oblivious_query | intros dd].
  apply oblivious_bind; [by apply oblivious_query | intros rs].
  cbv zeta. apply oblivious_bind; [apply oblivious_call | intros _].
  destruct (triggerWebhook E _ u); [apply oblivious_ret | apply oblivious_throw].
Qed.

(** A task other than ['get-document-status']: its own stored result is
    not the one that changes. *)
Lemma oblivious_runTask {A} cached store (task : M num A) :
  (∀ v (w : World num), cached (tasks (setStatusTask v w)) = cached (tasks w)) →
  (∀ a v (w : World num),
     with_tasks (setStatusTask v w) (store a (tasks (setStatusTask v w)))
     = setStatusTask v (with_tasks w (store a (tasks w)))) →
  oblivious task → oblivious (runTask cached store task).
Proof.
  intros Hc Hs Htask v w. unfold runTask. rewrite Hc.
  destruct (cached (tasks w)); [done|]. rewrite Htask.
  destruct (task w) as [[a|e] w']; simpl; [by rewrite Hs | done].
Qed.

End Oblivious.

Lemma runWith_independent {num} `{Number num} (E : Env num) drawText payload :
  independent (runWith E drawText payload).
Proof.
  unfold runWith. cbv beta zeta.
  apply independent_bind; [by apply oblivious_independent, oblivious_query|]. intros d.
  apply independent_bind; [by apply oblivious_independent, oblivious_query|]. intros rs.
  apply independent_bind.
  { apply oblivious_independent, oblivious_when, oblivious_throw. }
  intros _.
  apply independent_bind_unused.
  { intros w1 w2 Hw. unfold runTask.
    destruct (get_document_status (tasks w1)), (get_document_status (tasks w2)); simpl;
      (split; [done | exact Hw]). }
  apply oblivious_independent.
  (* get-document-data-id *)
  apply oblivious_bind; [by apply oblivious_runTask; [..|apply oblivious_ret]|]. intros documentDataId.
  apply oblivious_bind; [by apply oblivious_query|]. intros [documentData|];
    [|apply oblivious_throw].
  apply oblivious_bind; [by apply oblivious_query|]. intros recipients.
  apply oblivious_bind; [by apply oblivious_query|]. intros fields.
  apply oblivious_bind; [apply oblivious_when, oblivious_throw|]. intros _.
  (* the QR token *)
  apply oblivious_bind.
  { apply oblivious_when, oblivious_bind; [apply oblivious_nanoid|].
    intros; apply oblivious_document_update. }
  intros _.
  apply oblivious_bind; [apply oblivious_getFile|]. intros pdfData.
  apply oblivious_bind.
  { destruct (_ && _); [apply oblivious_certificate | apply oblivious_ret]. }
  intros certificateData.
  (* decorate-and-sign-pdf *)
  apply oblivious_bind.
  { apply oblivious_runTask; [done..|].
    apply oblivious_bind; [apply oblivious_load|]. intros pdfDoc.
    apply oblivious_bind.
    { destruct (Nat.ltb 0 _); [|apply oblivious_ret].
      apply oblivious_bind; [|intros; apply oblivious_ret].
      destruct certificateData; [|apply oblivious_ret].
      apply oblivious_bind; [apply oblivious_load | intros; apply oblivious_ret]. }
    intros pdfDoc'.
    apply oblivious_bind; [apply oblivious_saveAndSign|]. intros pdfBuffer.
    apply oblivious_bind; [apply oblivious_putPdfFile | intros; apply oblivious_ret]. }
  intros newDataId.
  apply oblivious_bind; [apply oblivious_capture|]. intros _.
  (* update-document *)
  apply oblivious_bind.
  { apply oblivious_runTask; [done..|]. apply oblivious_transaction.
    apply oblivious_bind; [by apply oblivious_query|]. intros newData.
    apply oblivious_bind; [apply oblivious_document_update|]. intros _.
    apply oblivious_bind; [apply oblivious_documentData_update|]. intros _.
    apply oblivious_bind; [apply oblivious_nanoid|]. intros transactionId.
    apply oblivious_documentAuditLog_create. }
  intros _.
  (* send-completed-email: the status tested is that of the document read
     at the start of the run *)
  apply oblivious_bind.
  { apply oblivious_runTask; [done..|]. apply oblivious_when, oblivious_completedEmail. }
  intros _.
  apply oblivious_reloadAndTriggerWebhook.
Qed.

(** ** Rejection, reseal and the stored status *)









(** On that reseal the row is read with its data reference rebound to
    ["initial"], and the signed PDF comes from those bytes. *)
Example reseal_reads_initial :
  let w' := (sealDocument env0 resealing0 (world0 [signer_signed] [])).2 in
  omap (λ c, match c with GetFile documentData => Some (data documentData) | _ => None end)
       (calls w') = ["initial"]
  ∧ omap (λ c, match c with SignPdf doc => Some (source doc) | _ => None end)
         (calls w') = ["initial"].
Proof. vm_compute. done. Qed.

Lemma sameRun_forget {num} (r1 r2 : Outcome () * World num) :
  r1.1 = r2.1 → forgetStatusTask r1.2 = forgetStatusTask r2.2 → sameRun r1 r2.
Proof.
  intros Hr Hw. repeat split; [done | done | ..].
  - exact (f_equal calls Hw).
  - exact (f_equal documentTable Hw).
  - exact (f_equal documentDataTable Hw).
  - exact (f_equal auditLogTable Hw).
Qed.

(** C10: in the job handlers the result stored for ['get-document-status']
    is never used. Two runs from worlds that differ in that result only
    have the same outcome, make the same writes and the same calls, and
    leave the same stored results but for that one. The completion e-mail
    of a reseal is decided on the status of the document read at the start
    of the run. *)
Theorem stored_document_status_is_unused {num : Type} `{Number num} (E : Env num)
    (payload : SealDocumentOptions) (w1 w2 : World num) :
  forgetStatusTask w1 = forgetStatusTask w2 →
  sameRun (Handler.run E payload w1) (Handler.run E payload w2)
  ∧ sameRun (Wrapping.run E payload w1) (Wrapping.run E payload w2).
Proof.
  intros Hw. split.
  - destruct (runWith_independent E drawCenteredText payload w1 w2 Hw) as [Hr Hw'].
    by apply sameRun_forget.
  - destruct (runWith_independent E (drawWrappedText (widthOfTextAtSize E)) payload w1 w2 Hw)
      as [Hr Hw'].
    by apply sameRun_forget.
Qed.

Lemma stored_document_status_is_unused_witness :
  sameRun (Handler.run env0 resealing0 (world_stored (Some DocumentStatus.COMPLETED)))
          (Handler.run env0 resealing0 (world_stored (Some DocumentStatus.DRAFT)))
  ∧ sameRun (Wrapping.run env0 resealing0 (world_stored (Some DocumentStatus.COMPLETED)))
            (Wrapping.run env0 resealing0 (world_stored (Some DocumentStatus.DRAFT))).
Proof.
  apply (stored_document_status_is_unused env0 resealing0
           (world_stored (Some DocumentStatus.COMPLETED))
           (world_stored (Some DocumentStatus.DRAFT))).
  reflexivity.
Defined.

(** On a reseal of the pending document the e-mail goes out although the
    stored status says COMPLETED: the status tested is the one just read. *)
Example reseal_email_ignores_stored_status :
  emails (Handler.run env0 resealing0 (world_stored (Some DocumentStatus.COMPLETED))).2 = [1%Z].
Proof. vm_compute. done. Qed.
